(** * rpi-fan-control: the control loop of [fancontrol.py], embedded and verified

    The development follows the source file top to bottom:
    [get_temperature], the class [Fan], [control] and [run].

    Modelling choices.
    - Python numbers ([float], and the [int] defaults that mix with them) are
      exact rationals [Q]; rounding, infinities and NaN are not modelled.
      Comparisons of results are therefore stated with [==].  The last
      section shows on one input what rounding does to lines 131-133.
    - The program talks to the thermal-zone file, to [lgpio], to [logging] and
      to [time.sleep].  Every such call appends an [event] to a chronological
      trace, and its answer (file contents, success or failure of a GPIO call)
      is given by an [environment] that may depend on the whole trace so far.
    - Code runs in a small state-and-exception monad [M] over that trace.
    - [while True] is unrolled a bounded number of times; [Running] is the
      outcome of a loop that is still going when the bound is reached. *)

From Stdlib Require Import List ZArith QArith Qabs Bool Lia Lqa Floats.
Import ListNotations.
Open Scope Q_scope.

(** ** Exceptions, events, environment *)

Inductive exn : Type :=
| OSError             (* open() of the thermal-zone file *)
| ValueError          (* float() of its contents; time.sleep of a negative length *)
| ZeroDivisionError   (* 100.0 / (tmax - tmin) *)
| TypeError           (* an lgpio call on the handle None *)
| LgpioError.         (* lgpio.error *)

Inductive log_record : Type :=
| LogInitialising
| LogExiting
| LogTemperature (temperature : Q)
| LogFanSpeed (percent : Q).

Inductive event : Type :=
| EvLog (r : log_record)
| EvReadThermal
| EvGpiochipOpen (index : Z)
| EvGpioClaimOutput (handle pin : Z)
| EvTxPwm (handle pin freq : Z) (percent : Q)
| EvGpiochipClose (handle : Z)
| EvSleep (interval : Q).

Definition trace : Type := list event.

(** What [open(filename)] followed by [float(infile.read())] finds. *)
Inductive thermal_file : Type :=
| FileUnreadable
| FileNotNumeric
| FileValue (raw : Q).

Record environment : Type := {
  thermal_zone0        : trace -> thermal_file;
  lg_gpiochip_open     : trace -> Z -> option Z;
  lg_gpio_claim_output : trace -> Z -> Z -> bool;
  lg_tx_pwm            : trace -> Z -> Z -> Z -> Q -> bool;
  lg_gpiochip_close    : trace -> Z -> bool
}.

(** ** The monad *)

Inductive outcome (A : Type) : Type :=
| Ok (a : A)
| Raise (e : exn)
| Running.

Arguments Ok {A} a.
Arguments Raise {A} e.
Arguments Running {A}.

Definition M (A : Type) : Type := trace -> outcome A * trace.

Definition ret {A} (a : A) : M A := fun tr => (Ok a, tr).

Definition bind {A B} (c : M A) (k : A -> M B) : M B := fun tr =>
  match c tr with
  | (Ok a, tr') => k a tr'
  | (Raise e, tr') => (Raise e, tr')
  | (Running, tr') => (Running, tr')
  end.

Definition raise {A} (e : exn) : M A := fun tr => (Raise e, tr).

Definition running {A} : M A := fun tr => (Running, tr).

Definition emit (ev : event) : M unit := fun tr => (Ok tt, tr ++ [ev]).

Definition history : M trace := fun tr => (Ok tr, tr).

Declare Scope monad_scope.
Delimit Scope monad_scope with monad.
Notation "x <- c1 ;; c2" := (bind c1 (fun x => c2))
  (at level 61, c1 at next level, right associativity) : monad_scope.
Notation "c1 ;; c2" := (bind c1 (fun _ => c2))
  (at level 61, right associativity) : monad_scope.
Open Scope monad_scope.

(** The clean-up half of a [with] block: [cleanup] runs when [c] returns and
    when [c] raises; an exception of [cleanup] itself replaces the pending one. *)
Definition finally {A B} (c : M A) (cleanup : M B) : M A := fun tr =>
  match c tr with
  | (Ok a, tr') => (cleanup ;; ret a) tr'
  | (Raise e, tr') => (cleanup ;; raise e) tr'
  | (Running, tr') => (Running, tr')
  end.

(** [while True: s = body(s)], unrolled [fuel] times. *)
Fixpoint while_true {S : Type} (fuel : nat) (body : S -> M S) (s : S)
  : M Empty_set :=
  match fuel with
  | O => running
  | Datatypes.S k => s' <- body s ;; while_true k body s'
  end.

(** ** Python arithmetic on numbers *)

Definition Qlt_bool (x y : Q) : bool := negb (Qle_bool y x).

(** [a / b] raises on a zero divisor. *)
Definition py_div (a b : Q) : M Q :=
  if Qeq_bool b 0 then raise ZeroDivisionError else ret (a / b).

(** [max(a, b)] keeps [a] unless [b > a]; [min(a, b)] keeps [a] unless [b < a]. *)
Definition py_max (a b : Q) : Q := if Qlt_bool a b then b else a.
Definition py_min (a b : Q) : Q := if Qlt_bool b a then b else a.

(** ** The external calls *)

Definition gpiochip_open (env : environment) (index : Z) : M Z :=
  tr <- history ;;
  emit (EvGpiochipOpen index) ;;
  match lg_gpiochip_open env tr index with
  | Some handle => ret handle
  | None => raise LgpioError
  end.

Definition gpio_claim_output (env : environment) (handle pin : Z) : M unit :=
  tr <- history ;;
  emit (EvGpioClaimOutput handle pin) ;;
  if lg_gpio_claim_output env tr handle pin then ret tt else raise LgpioError.

Definition tx_pwm (env : environment) (handle pin freq : Z) (percent : Q)
  : M unit :=
  tr <- history ;;
  emit (EvTxPwm handle pin freq percent) ;;
  if lg_tx_pwm env tr handle pin freq percent then ret tt else raise LgpioError.

Definition gpiochip_close (env : environment) (handle : Z) : M unit :=
  tr <- history ;;
  emit (EvGpiochipClose handle) ;;
  if lg_gpiochip_close env tr handle then ret tt else raise LgpioError.

Definition sleep (interval : Q) : M unit :=
  if Qlt_bool interval 0 then raise ValueError else emit (EvSleep interval).

(** ** [get_temperature] *)

Definition get_temperature (env : environment) : M Q :=
  tr <- history ;;
  emit EvReadThermal ;;
  match thermal_zone0 env tr with
  | FileUnreadable => raise OSError
  | FileNotNumeric => raise ValueError
  | FileValue raw =>
      let temperature := raw / 1000 in
      emit (EvLog (LogTemperature temperature)) ;;
      ret temperature
  end.

(** ** class [Fan]

    A [Fan] object is the record of its two attributes; a method that assigns
    to [self] returns the updated object. *)

Module Fan.

Definition FREQ : Z := 25.

Record t : Type := mk { pin : Z; h : option Z }.

Definition __init__ (env : environment) (index pin : Z) : M t :=
  emit (EvLog LogInitialising) ;;
  handle <- gpiochip_open env index ;;
  gpio_claim_output env handle pin ;;
  ret (mk pin (Some handle)).

Definition close (env : environment) (self : t) : M t :=
  match h self with
  | Some handle =>
      emit (EvLog LogExiting) ;;
      gpiochip_close env handle ;;
      ret (mk (pin self) None)
  | None => ret self
  end.

Definition __enter__ (self : t) : M t := ret self.

Definition __exit__ (env : environment) (self : t) : M t := close env self.

Definition set (env : environment) (self : t) (percent : Q) : M unit :=
  emit (EvLog (LogFanSpeed percent)) ;;
  match h self with
  | Some handle => tx_pwm env handle (pin self) FREQ percent
  | None => raise TypeError
  end.

End Fan.

(** ** [control] *)

(** Lines 131-133: the duty cycle for one temperature. *)
Definition target_speed (tmin tmax temperature : Q) : M Q :=
  m <- py_div 100 (tmax - tmin) ;;
  let c := - m * tmin in
  ret (py_min (py_max (m * temperature + c) 0) 100).

(** One pass through the body of the loop; the value returned is
    [previous_speed] as the next pass finds it. *)
Definition control_body (env : environment) (fan : Fan.t)
    (tmin tmax interval epsilon previous_speed : Q) : M Q :=
  temperature <- get_temperature env ;;
  speed <- target_speed tmin tmax temperature ;;
  previous_speed' <-
    (if Qlt_bool epsilon (Qabs (speed - previous_speed))
     then Fan.set env fan speed ;; ret speed
     else ret previous_speed) ;;
  sleep interval ;;
  ret previous_speed'.

Definition control (env : environment) (fuel : nat) (fan : Fan.t)
    (tmin tmax interval epsilon : Q) : M Empty_set :=
  let previous_speed := 0 in
  while_true fuel (control_body env fan tmin tmax interval epsilon)
    previous_speed.

(** ** [run] *)

Definition run (env : environment) (fuel : nat) (index pin : Z)
    (tmin tmax interval epsilon : Q) : M Empty_set :=
  obj <- Fan.__init__ env index pin ;;
  fan <- Fan.__enter__ obj ;;
  finally (control env fuel fan tmin tmax interval epsilon)
          (Fan.__exit__ env obj).

(** ** Definitions used by the statements *)


(** [n] complete passes through a loop body. *)
Fixpoint iterations {S : Type} (n : nat) (body : S -> M S) (s : S) : M S :=
  match n with
  | O => ret s
  | Datatypes.S k => s' <- body s ;; iterations k body s'
  end.

(** The duty cycles handed to [lgpio.tx_pwm], oldest first. *)
Fixpoint pwm_writes (tr : trace) : list Q :=
  match tr with
  | [] => []
  | EvTxPwm _ _ _ percent :: rest => percent :: pwm_writes rest
  | _ :: rest => pwm_writes rest
  end.

Definition is_read (ev : event) : bool :=
  match ev with EvReadThermal => true | _ => false end.

Definition is_close (ev : event) : bool :=
  match ev with EvGpiochipClose _ => true | _ => false end.

Definition reads (tr : trace) : nat := length (filter is_read tr).
Definition closes (tr : trace) : nat := length (filter is_close tr).

(** An event that carries a duty cycle carries one between 0 and 100. *)
Definition duty_in_range (ev : event) : Prop :=
  match ev with
  | EvTxPwm _ _ _ percent => 0 <= percent <= 100
  | EvLog (LogFanSpeed percent) => 0 <= percent <= 100
  | _ => True
  end.


Definition not_close (ev : event) : Prop := is_close ev = false.

(** The loop body has not been entered as long as the sensor was never read. *)
Definition loop_never_entered (tr : trace) : Prop := reads tr = 0%nat.

(** A board whose GPIO calls all succeed (the chip opens as handle 0) and
    whose thermal-zone file shows [files] one read after the other. *)
Definition scripted (files : list thermal_file) : environment :=
  {| thermal_zone0 := fun tr => nth (reads tr) files FileUnreadable;
     lg_gpiochip_open := fun _ _ => Some 0%Z;
     lg_gpio_claim_output := fun _ _ _ => true;
     lg_tx_pwm := fun _ _ _ _ _ => true;
     lg_gpiochip_close := fun _ _ => true |}.

(** A healthy board whose sensor always shows the same value. *)
Definition steady (raw : Q) : environment :=
  {| thermal_zone0 := fun _ => FileValue raw;
     lg_gpiochip_open := fun _ _ => Some 0%Z;
     lg_gpio_claim_output := fun _ _ _ => true;
     lg_tx_pwm := fun _ _ _ _ _ => true;
     lg_gpiochip_close := fun _ _ => true |}.

(** Scenario A: a healthy board that shows 40, 60, 61 and 90 degrees. *)
Definition scenario_A : environment :=
  scripted [FileValue 40000; FileValue 60000; FileValue 61000;
            FileValue 90000].

(** Scenario B: a healthy board whose sensor fails on the third read. *)
Definition scenario_B : environment :=
  scripted [FileValue 40000; FileValue 60000; FileNotNumeric].

(** A run that ends in an exception without the loop body ever being
    entered. *)
Definition rejected_before_loop (r : outcome Empty_set * trace) : Prop :=
  (exists e, fst r = Raise e) /\ loop_never_entered (snd r).

(** [c] only ever appends events, each appended event satisfies [P], and a
    value that [c] returns satisfies [R]. *)
Definition appends {A} (P : event -> Prop) (R : A -> Prop) (c : M A) : Prop :=
  forall tr, exists new,
    snd (c tr) = tr ++ new /\ Forall P new /\
    forall a, fst (c tr) = Ok a -> R a.

Definition any {A} : A -> Prop := fun _ => True.

(** Lines 131-133 once more, on binary64 numbers and for [tmax <> tmin];
    used only to show the effect of rounding. *)
Definition target_speed_binary64 (tmin tmax temperature : float) : float :=
  let m := (100 / (tmax - tmin))%float in
  let c := (- m * tmin)%float in
  let raised := (m * temperature + c)%float in
  let floored := if (raised <? 0)%float then 0%float else raised in
  if (100 <? floored)%float then 100%float else floored.

(** A temperature that [get_temperature] returns is a thousandth of a value
    the thermal-zone file showed. *)
Definition was_read (env : environment) (temperature : Q) : Prop :=
  exists tr raw,
    thermal_zone0 env tr = FileValue raw /\ temperature = raw / 1000.

(** A speed that [target_speed] returns lies in [0, 100], and the call that
    returned it left the trace alone. *)
Definition is_target (tmin tmax temperature speed : Q) : Prop :=
  0 <= speed <= 100 /\
  forall tr, target_speed tmin tmax temperature tr = (Ok speed, tr).

(** ** Further definitions for the statements about whole runs *)

Definition is_sleep (ev : event) : bool :=
  match ev with EvSleep _ => true | _ => false end.

Definition sleeps (tr : trace) : nat := length (filter is_sleep tr).

(** An outcome that is a normal return. *)
Definition completed {A} (o : outcome A) : bool :=
  match o with Ok _ => true | _ => false end.

(** Each write is more than [epsilon] away from the write before it, and the
    first one from [previous]. *)
Fixpoint apart (epsilon previous : Q) (writes : list Q) : Prop :=
  match writes with
  | [] => True
  | w :: rest => epsilon < Qabs (w - previous) /\ apart epsilon w rest
  end.

(** What the loop may do to the GPIO chip: only [tx_pwm], on the handle and
    pin of [fan], at 25 Hz; it neither opens, claims nor closes. *)
Definition on_fan (fan : Fan.t) (ev : event) : Prop :=
  match ev with
  | EvTxPwm handle pin freq _ =>
      Fan.h fan = Some handle /\ pin = Fan.pin fan /\ freq = 25%Z
  | EvGpiochipOpen _ | EvGpioClaimOutput _ _ | EvGpiochipClose _ => False
  | _ => True
  end.

(** A [tx_pwm] of [run]: on the handle that [gpiochip_open] returned for
    [index], on [pin], at 25 Hz. *)
Definition on_board (env : environment) (index pin : Z) (ev : event) : Prop :=
  match ev with
  | EvTxPwm handle p freq _ =>
      lg_gpiochip_open env [EvLog LogInitialising] index = Some handle /\
      p = pin /\ freq = 25%Z
  | _ => True
  end.

(** A board whose calls answer the same way every time. *)
Definition board (files : trace -> thermal_file) (chip : option Z)
    (claim pwm close : bool) : environment :=
  {| thermal_zone0 := files;
     lg_gpiochip_open := fun _ _ => chip;
     lg_gpio_claim_output := fun _ _ _ => claim;
     lg_tx_pwm := fun _ _ _ _ _ => pwm;
     lg_gpiochip_close := fun _ _ => close |}.

(** ** Arithmetic *)

Lemma Qlt_bool_true x y : Qlt_bool x y = true <-> x < y.
Proof.
  unfold Qlt_bool. rewrite negb_true_iff. split; intro H.
  - apply Qnot_le_lt. intro Hle. apply Qle_bool_iff in Hle. congruence.
  - destruct (Qle_bool y x) eqn:E; [|reflexivity].
    apply Qle_bool_iff in E. exfalso. exact (Qlt_not_le _ _ H E).
Qed.

Lemma Qlt_bool_false x y : Qlt_bool x y = false <-> y <= x.
Proof.
  unfold Qlt_bool. rewrite negb_false_iff. apply Qle_bool_iff.
Qed.


Lemma py_max_spec a b :
  (a < b /\ py_max a b = b) \/ (b <= a /\ py_max a b = a).
Proof.
  unfold py_max. destruct (Qlt_bool a b) eqn:E.
  - left. split; [now apply Qlt_bool_true | reflexivity].
  - right. split; [now apply Qlt_bool_false | reflexivity].
Qed.

Lemma py_min_spec a b :
  (b < a /\ py_min a b = b) \/ (a <= b /\ py_min a b = a).
Proof.
  unfold py_min. destruct (Qlt_bool b a) eqn:E.
  - left. split; [now apply Qlt_bool_true | reflexivity].
  - right. split; [now apply Qlt_bool_false | reflexivity].
Qed.

(** The clamp lands in [0, 100] whatever it is given. *)
Lemma clamp_range x : 0 <= py_min (py_max x 0) 100 <= 100.
Proof.
  destruct (py_max_spec x 0) as [[H1 E1]|[H1 E1]]; rewrite E1;
    destruct (py_min_spec 0 100) as [[H2 E2]|[H2 E2]];
    destruct (py_min_spec x 100) as [[H3 E3]|[H3 E3]];
    try rewrite E2; try rewrite E3; lra.
Qed.

(** The clamp is the identity on [0, 100], and saturates outside. *)
Lemma clamp_cases x :
  (x <= 0 /\ py_min (py_max x 0) 100 == 0) \/
  (0 <= x <= 100 /\ py_min (py_max x 0) 100 == x) \/
  (100 <= x /\ py_min (py_max x 0) 100 == 100).
Proof.
  destruct (py_max_spec x 0) as [[H1 E1]|[H1 E1]]; rewrite E1.
  - left. split; [lra|].
    destruct (py_min_spec 0 100) as [[H2 E2]|[H2 E2]]; rewrite E2; lra.
  - destruct (py_min_spec x 100) as [[H2 E2]|[H2 E2]]; rewrite E2.
    + right. right. split; lra.
    + right. left. split; lra.
Qed.

(** The straight line of lines 131-133, in closed form. *)
Lemma line_closed_form tmin tmax t :
  tmin < tmax ->
  100 / (tmax - tmin) * t + - (100 / (tmax - tmin)) * tmin
  == 100 * (t - tmin) / (tmax - tmin).
Proof.
  intro H. field. lra.
Qed.




Lemma line_monotone tmin tmax t1 t2 :
  tmin < tmax -> t1 <= t2 ->
  100 * (t1 - tmin) / (tmax - tmin) <= 100 * (t2 - tmin) / (tmax - tmin).
Proof.
  intros H Ht. unfold Qdiv. apply Qmult_le_compat_r; [lra|].
  apply Qlt_le_weak, Qinv_lt_0_compat. lra.
Qed.

(** With [tmin < tmax] the division succeeds and [target_speed] is the clamp
    of the line. *)
Lemma target_speed_ok tmin tmax t tr :
  ~ tmax == tmin ->
  target_speed tmin tmax t tr =
    (Ok (py_min (py_max (100 / (tmax - tmin) * t
                         + - (100 / (tmax - tmin)) * tmin) 0) 100), tr).
Proof.
  intro H. unfold target_speed, py_div, bind.
  destruct (Qeq_bool (tmax - tmin) 0) eqn:E.
  - apply Qeq_bool_iff in E. exfalso. apply H. lra.
  - reflexivity.
Qed.

(** With [tmax == tmin] the division raises. *)
Lemma target_speed_zero_division tmin tmax t tr :
  tmax == tmin ->
  target_speed tmin tmax t tr = (Raise ZeroDivisionError, tr).
Proof.
  intro H. unfold target_speed, py_div, bind.
  destruct (Qeq_bool (tmax - tmin) 0) eqn:E.
  - reflexivity.
  - apply Qeq_bool_neq in E. exfalso. apply E. lra.
Qed.

(** ** The duty-cycle mapping *)



(** C5: for [tmin < tmax] the mapping from temperature to duty cycle is
    monotone: [t1 < t2] gives a duty cycle for [t1] that is at most the one
    for [t2]. *)
Theorem target_speed_monotone (tmin tmax t1 t2 : Q) (tr : trace) :
  tmin < tmax -> t1 < t2 ->
  exists s1 s2,
    target_speed tmin tmax t1 tr = (Ok s1, tr) /\
    target_speed tmin tmax t2 tr = (Ok s2, tr) /\
    s1 <= s2.
Proof.
  intros H Ht. do 2 eexists.
  split; [apply target_speed_ok; intro; lra|].
  split; [apply target_speed_ok; intro; lra|].
  pose proof (line_closed_form tmin tmax t1 H) as L1.
  pose proof (line_closed_form tmin tmax t2 H) as L2.
  assert (B : 100 * (t1 - tmin) / (tmax - tmin)
              <= 100 * (t2 - tmin) / (tmax - tmin))
    by (apply line_monotone; lra).
  destruct (clamp_cases (100 / (tmax - tmin) * t1
                         + - (100 / (tmax - tmin)) * tmin))
    as [[C1 ->]|[[C1 ->]|[C1 ->]]];
  destruct (clamp_cases (100 / (tmax - tmin) * t2
                         + - (100 / (tmax - tmin)) * tmin))
    as [[C2 ->]|[[C2 ->]|[C2 ->]]]; lra.
Qed.

Lemma target_speed_monotone_witness :
  50 < 75 /\ 60 < 61 /\
  exists s1 s2,
    target_speed 50 75 60 [] = (Ok s1, []) /\
    target_speed 50 75 61 [] = (Ok s2, []) /\
    s1 <= s2.
Proof.
  split; [reflexivity|]. split; [reflexivity|].
  apply (target_speed_monotone 50 75 60 61 []); reflexivity.
Defined.

(** ** What a computation appends to the trace *)

Section Appends.

Variable P : event -> Prop.

(** Opens the proof for a computation that appends nothing. *)
Ltac appends_nothing :=
  intros tr; exists []; simpl; rewrite app_nil_r;
  split; [reflexivity | split; [constructor|]].

Lemma appends_ret {A} (R : A -> Prop) (a : A) : R a -> appends P R (ret a).
Proof.
  intros Ha. appends_nothing. intros a' E. injection E as <-. exact Ha.
Qed.

Lemma appends_raise {A} (R : A -> Prop) (e : exn) : appends P R (raise e).
Proof.
  appends_nothing. intros a' E. discriminate.
Qed.

Lemma appends_running {A} (R : A -> Prop) : appends P R (@running A).
Proof.
  appends_nothing. intros a' E. discriminate.
Qed.

Lemma appends_history : appends P any history.
Proof.
  appends_nothing. intros a' E. exact I.
Qed.

Lemma appends_emit (ev : event) : P ev -> appends P any (emit ev).
Proof.
  intros Hev tr. exists [ev]. simpl.
  split; [reflexivity|]. split; [|intros a' E; exact I].
  constructor; [exact Hev | constructor].
Qed.

Lemma appends_bind {A B} (R : A -> Prop) (R' : B -> Prop)
    (c : M A) (k : A -> M B) :
  appends P R c -> (forall a, R a -> appends P R' (k a)) ->
  appends P R' (bind c k).
Proof.
  intros Hc Hk tr. unfold bind.
  destruct (Hc tr) as (new1 & E1 & F1 & R1).
  destruct (c tr) as [[a|e|] tr1]; simpl in *; subst tr1.
  - destruct (Hk a (R1 a eq_refl) (tr ++ new1)) as (new2 & E2 & F2 & R2).
    exists (new1 ++ new2). rewrite E2, app_assoc.
    split; [reflexivity|]. split; [|exact R2].
    apply Forall_app. now split.
  - exists new1. split; [reflexivity|]. split; [assumption|].
    intros a' E. discriminate.
  - exists new1. split; [reflexivity|]. split; [assumption|].
    intros a' E. discriminate.
Qed.

Lemma appends_finally {A B} (R : A -> Prop) (R' : B -> Prop)
    (c : M A) (cleanup : M B) :
  appends P R c -> appends P R' cleanup -> appends P R (finally c cleanup).
Proof.
  intros Hc Hf tr. unfold finally.
  destruct (Hc tr) as (new1 & E1 & F1 & R1).
  destruct (c tr) as [[a|e|] tr1]; simpl in *; subst tr1.
  - assert (H : appends P R (cleanup ;; ret a)).
    { eapply appends_bind; [exact Hf|]. intros _ _.
      apply appends_ret. now apply R1. }
    destruct (H (tr ++ new1)) as (new2 & E2 & F2 & R2).
    exists (new1 ++ new2). rewrite E2, app_assoc.
    split; [reflexivity|]. split; [|exact R2].
    apply Forall_app. now split.
  - assert (H : appends P R (cleanup ;; raise e)).
    { eapply appends_bind; [exact Hf|]. intros _ _. apply appends_raise. }
    destruct (H (tr ++ new1)) as (new2 & E2 & F2 & R2).
    exists (new1 ++ new2). rewrite E2, app_assoc.
    split; [reflexivity|]. split; [|exact R2].
    apply Forall_app. now split.
  - exists new1. split; [reflexivity|]. split; [assumption|].
    intros a' E. discriminate.
Qed.

Lemma appends_iterations {S} (I : S -> Prop) (body : S -> M S) :
  (forall s, I s -> appends P I (body s)) ->
  forall n s, I s -> appends P I (iterations n body s).
Proof.
  intros Hbody. induction n as [|n IH]; intros s Hs; simpl.
  - now apply appends_ret.
  - eapply appends_bind; [apply Hbody; exact Hs|]. intros s' Hs'.
    now apply IH.
Qed.

Lemma appends_while_true {S} (I : S -> Prop) (body : S -> M S) :
  (forall s, I s -> appends P I (body s)) ->
  forall fuel s, I s -> appends P any (while_true fuel body s).
Proof.
  intros Hbody. induction fuel as [|n IH]; intros s Hs; simpl.
  - apply appends_running.
  - eapply appends_bind; [apply Hbody; exact Hs|]. intros s' Hs'.
    now apply IH.
Qed.

(** The leaves: each call appends its own events and nothing else. *)

Variable env : environment.

Lemma appends_gpiochip_open index :
  P (EvGpiochipOpen index) -> appends P any (gpiochip_open env index).
Proof.
  intro H. unfold gpiochip_open.
  eapply appends_bind; [apply appends_history|]. intros tr _.
  eapply appends_bind; [apply appends_emit; exact H|]. intros _ _.
  destruct (lg_gpiochip_open env tr index);
    [now apply appends_ret | apply appends_raise].
Qed.

Lemma appends_gpio_claim_output handle pin :
  P (EvGpioClaimOutput handle pin) ->
  appends P any (gpio_claim_output env handle pin).
Proof.
  intro H. unfold gpio_claim_output.
  eapply appends_bind; [apply appends_history|]. intros tr _.
  eapply appends_bind; [apply appends_emit; exact H|]. intros _ _.
  destruct (lg_gpio_claim_output env tr handle pin);
    [now apply appends_ret | apply appends_raise].
Qed.

Lemma appends_tx_pwm handle pin freq percent :
  P (EvTxPwm handle pin freq percent) ->
  appends P any (tx_pwm env handle pin freq percent).
Proof.
  intro H. unfold tx_pwm.
  eapply appends_bind; [apply appends_history|]. intros tr _.
  eapply appends_bind; [apply appends_emit; exact H|]. intros _ _.
  destruct (lg_tx_pwm env tr handle pin freq percent);
    [now apply appends_ret | apply appends_raise].
Qed.

Lemma appends_gpiochip_close handle :
  P (EvGpiochipClose handle) -> appends P any (gpiochip_close env handle).
Proof.
  intro H. unfold gpiochip_close.
  eapply appends_bind; [apply appends_history|]. intros tr _.
  eapply appends_bind; [apply appends_emit; exact H|]. intros _ _.
  destruct (lg_gpiochip_close env tr handle);
    [now apply appends_ret | apply appends_raise].
Qed.

Lemma appends_sleep interval :
  P (EvSleep interval) -> appends P any (sleep interval).
Proof.
  intro H. unfold sleep.
  destruct (Qlt_bool interval 0);
    [apply appends_raise | now apply appends_emit].
Qed.

Lemma appends_get_temperature :
  P EvReadThermal -> (forall t, P (EvLog (LogTemperature t))) ->
  appends P (was_read env) (get_temperature env).
Proof.
  intros H1 H2. unfold get_temperature.
  eapply appends_bind; [apply appends_history|]. intros tr _.
  eapply appends_bind; [apply appends_emit; exact H1|]. intros _ _.
  destruct (thermal_zone0 env tr) as [| |raw] eqn:E;
    try apply appends_raise.
  eapply appends_bind; [apply appends_emit, H2|]. intros _ _.
  apply appends_ret. now exists tr, raw.
Qed.

Lemma appends_target_speed tmin tmax temperature :
  appends P (is_target tmin tmax temperature)
    (target_speed tmin tmax temperature).
Proof.
  intro tr. exists []. rewrite app_nil_r.
  unfold is_target, target_speed, py_div, bind.
  destruct (Qeq_bool (tmax - tmin) 0) eqn:Z; simpl.
  - split; [reflexivity|]. split; [constructor|]. intros a E. discriminate.
  - split; [reflexivity|]. split; [constructor|]. intros a E.
    inversion E; subst. split; [apply clamp_range|].
    intros tr'. reflexivity.
Qed.

Lemma appends_Fan_init index pin :
  P (EvLog LogInitialising) -> P (EvGpiochipOpen index) ->
  (forall handle, P (EvGpioClaimOutput handle pin)) ->
  appends P (fun fan => exists handle, fan = Fan.mk pin (Some handle))
    (Fan.__init__ env index pin).
Proof.
  intros H1 H2 H3. unfold Fan.__init__.
  eapply appends_bind; [apply appends_emit; exact H1|]. intros _ _.
  eapply appends_bind; [apply appends_gpiochip_open; exact H2|].
  intros handle _.
  eapply appends_bind; [apply appends_gpio_claim_output, H3|]. intros _ _.
  apply appends_ret. now exists handle.
Qed.

Lemma appends_Fan_close self :
  P (EvLog LogExiting) -> (forall handle, P (EvGpiochipClose handle)) ->
  appends P (fun fan => Fan.h fan = None) (Fan.close env self).
Proof.
  intros H1 H2. unfold Fan.close. destruct (Fan.h self) as [handle|] eqn:E.
  - eapply appends_bind; [apply appends_emit; exact H1|]. intros _ _.
    eapply appends_bind; [apply appends_gpiochip_close, H2|]. intros _ _.
    now apply appends_ret.
  - now apply appends_ret.
Qed.

Lemma appends_Fan_set self percent :
  P (EvLog (LogFanSpeed percent)) ->
  (forall handle pin freq, P (EvTxPwm handle pin freq percent)) ->
  appends P any (Fan.set env self percent).
Proof.
  intros H1 H2. unfold Fan.set.
  eapply appends_bind; [apply appends_emit; exact H1|]. intros _ _.
  destruct (Fan.h self); [apply appends_tx_pwm, H2 | apply appends_raise].
Qed.

End Appends.

(** ** The loop as a whole *)

(** One pass of the loop body appends nothing but a sensor read, log records,
    at most one [tx_pwm] of a duty cycle in [0, 100], and a sleep. *)
Lemma appends_control_body (P : event -> Prop) env fan
    tmin tmax interval epsilon previous_speed :
  P EvReadThermal ->
  (forall t, P (EvLog (LogTemperature t))) ->
  (forall s, 0 <= s <= 100 -> P (EvLog (LogFanSpeed s))) ->
  (forall handle pin freq s, 0 <= s <= 100 -> P (EvTxPwm handle pin freq s)) ->
  P (EvSleep interval) ->
  appends P any
    (control_body env fan tmin tmax interval epsilon previous_speed).
Proof.
  intros H1 H2 H3 H4 H5. unfold control_body.
  eapply appends_bind; [apply appends_get_temperature; assumption|].
  intros temperature _.
  eapply appends_bind; [apply appends_target_speed|]. intros speed [Hs _].
  eapply appends_bind with (R := any).
  - destruct (Qlt_bool epsilon (Qabs (speed - previous_speed))).
    + eapply appends_bind; [apply appends_Fan_set; auto|].
      intros _ _. now apply appends_ret.
    + now apply appends_ret.
  - intros p _.
    eapply appends_bind; [apply appends_sleep; exact H5|]. intros _ _.
    now apply appends_ret.
Qed.

Lemma control_body_in_range env fan tmin tmax interval epsilon previous_speed :
  appends duty_in_range any
    (control_body env fan tmin tmax interval epsilon previous_speed).
Proof. apply appends_control_body; simpl; auto. Qed.

Lemma control_body_never_closes env fan tmin tmax interval epsilon
    previous_speed :
  appends not_close any
    (control_body env fan tmin tmax interval epsilon previous_speed).
Proof. apply appends_control_body; intros; reflexivity. Qed.

Lemma closes_none (new : trace) : Forall not_close new -> closes new = 0%nat.
Proof.
  unfold closes. induction 1 as [|ev rest Hev _ IH]; [reflexivity|].
  simpl. now rewrite Hev.
Qed.

(** C6: every value handed to the fan's [set] lies in the closed interval
    [0, 100], for all parameters, all sensor values and any number of passes
    of the loop: this holds of the events that [control] appends to any trace,
    and of the whole trace of [run]. *)
Theorem set_values_in_range (env : environment) (fuel : nat) (fan : Fan.t)
    (index pin : Z) (tmin tmax interval epsilon : Q) (tr : trace) :
  (exists new,
     snd (control env fuel fan tmin tmax interval epsilon tr) = tr ++ new /\
     Forall duty_in_range new) /\
  Forall duty_in_range
    (snd (run env fuel index pin tmin tmax interval epsilon [])).
Proof.
  assert (C : forall fan', appends duty_in_range any
                (control env fuel fan' tmin tmax interval epsilon)).
  { intro fan'. unfold control.
    apply appends_while_true with (I := any); [|exact I].
    intros s _. apply control_body_in_range. }
  split.
  - destruct (C fan tr) as (new & E & F & _). now exists new.
  - assert (R : appends duty_in_range any
                  (run env fuel index pin tmin tmax interval epsilon)).
    { unfold run.
      eapply appends_bind; [apply appends_Fan_init; simpl; auto|].
      intros obj _.
      eapply appends_bind with (R := any);
        [unfold Fan.__enter__; now apply appends_ret|]. intros fan' _.
      eapply appends_finally; [apply C|].
      apply appends_Fan_close; simpl; auto. }
    destruct (R []) as (new & E & F & _). rewrite E. exact F.
Qed.




(** ** Single calls, step by step *)

Lemma pwm_writes_app tr1 tr2 :
  pwm_writes (tr1 ++ tr2) = pwm_writes tr1 ++ pwm_writes tr2.
Proof.
  induction tr1 as [|ev tr1 IH]; [reflexivity|].
  destruct ev; simpl; congruence.
Qed.

Lemma closes_app tr1 tr2 : closes (tr1 ++ tr2) = (closes tr1 + closes tr2)%nat.
Proof. unfold closes. now rewrite filter_app, length_app. Qed.

Lemma bind_ok {A B} (c : M A) (k : A -> M B) tr a tr' :
  c tr = (Ok a, tr') -> bind c k tr = k a tr'.
Proof. intro H. unfold bind. now rewrite H. Qed.

Lemma bind_raise {A B} (c : M A) (k : A -> M B) tr e tr' :
  c tr = (Raise e, tr') -> bind c k tr = (Raise e, tr').
Proof. intro H. unfold bind. now rewrite H. Qed.

Lemma get_temperature_value env tr raw :
  thermal_zone0 env tr = FileValue raw ->
  get_temperature env tr =
    (Ok (raw / 1000),
     tr ++ [EvReadThermal; EvLog (LogTemperature (raw / 1000))]).
Proof.
  intro H. unfold get_temperature, bind, history, emit, ret.
  rewrite H. now rewrite <- app_assoc.
Qed.

Lemma get_temperature_failure env tr e tr' :
  get_temperature env tr = (Raise e, tr') ->
  tr' = tr ++ [EvReadThermal] /\ (e = OSError \/ e = ValueError).
Proof.
  unfold get_temperature, bind, history, emit, ret, raise.
  destruct (thermal_zone0 env tr); intro H; inversion H; auto.
Qed.

Lemma sleep_ok interval tr :
  0 <= interval -> sleep interval tr = (Ok tt, tr ++ [EvSleep interval]).
Proof.
  intro H. unfold sleep. apply Qlt_bool_false in H. now rewrite H.
Qed.

Lemma Fan_set_open env fan handle percent tr :
  Fan.h fan = Some handle ->
  Fan.set env fan percent tr =
    let tr' := tr ++ [EvLog (LogFanSpeed percent)] in
    let call := EvTxPwm handle (Fan.pin fan) Fan.FREQ percent in
    if lg_tx_pwm env tr' handle (Fan.pin fan) Fan.FREQ percent
    then (Ok tt, tr' ++ [call])
    else (Raise LgpioError, tr' ++ [call]).
Proof.
  intro H. unfold Fan.set, tx_pwm, bind, history, emit, ret, raise.
  rewrite H. simpl.
  now destruct (lg_tx_pwm env _ handle (Fan.pin fan) Fan.FREQ percent).
Qed.

Lemma Fan_close_open env fan handle tr :
  Fan.h fan = Some handle ->
  Fan.close env fan tr =
    let tr' := tr ++ [EvLog LogExiting; EvGpiochipClose handle] in
    if lg_gpiochip_close env (tr ++ [EvLog LogExiting]) handle
    then (Ok (Fan.mk (Fan.pin fan) None), tr')
    else (Raise LgpioError, tr').
Proof.
  intro H. unfold Fan.close, gpiochip_close, bind, history, emit, ret, raise.
  rewrite H. simpl. rewrite <- app_assoc. simpl.
  now destruct (lg_gpiochip_close env _ handle).
Qed.

(** C9: when the thermal-zone file holds the number [raw] (millidegrees),
    [get_temperature] returns [raw / 1000]; all it does besides is the read
    itself and one log record, so neither the fan nor the loop's
    [previous_speed] is touched, and no GPIO call is made. *)
Theorem get_temperature_millidegrees (env : environment) (tr : trace)
    (raw : Q) :
  thermal_zone0 env tr = FileValue raw ->
  get_temperature env tr =
    (Ok (raw / 1000),
     tr ++ [EvReadThermal; EvLog (LogTemperature (raw / 1000))]) /\
  pwm_writes (snd (get_temperature env tr)) = pwm_writes tr /\
  closes (snd (get_temperature env tr)) = closes tr.
Proof.
  intro H. rewrite (get_temperature_value env tr raw H).
  split; [reflexivity|]. split.
  - unfold snd. rewrite pwm_writes_app. apply app_nil_r.
  - unfold snd, closes. rewrite filter_app, length_app. simpl. lia.
Qed.

Lemma get_temperature_millidegrees_witness :
  get_temperature (steady 61000) [] =
    (Ok (61000 / 1000),
     [] ++ [EvReadThermal; EvLog (LogTemperature (61000 / 1000))]) /\
  pwm_writes (snd (get_temperature (steady 61000) [])) = pwm_writes [] /\
  closes (snd (get_temperature (steady 61000) [])) = closes [].
Proof.
  apply (get_temperature_millidegrees (steady 61000) [] 61000).
  reflexivity.
Defined.

(** C7: [close] is idempotent: once a call of [close] has returned, calling
    it again on the object returns as well, raises nothing and makes no GPIO
    call (the trace stays as it is). *)
Theorem close_twice (env : environment) (self self' : Fan.t)
    (tr tr' : trace) :
  Fan.close env self tr = (Ok self', tr') ->
  Fan.close env self' tr' = (Ok self', tr').
Proof.
  unfold Fan.close. destruct (Fan.h self) as [handle|] eqn:E.
  - unfold gpiochip_close, bind, history, emit, ret, raise.
    destruct (lg_gpiochip_close env _ handle); intro H; inversion H.
    reflexivity.
  - unfold ret. intro H. inversion H; subst. now rewrite E.
Qed.

Lemma close_twice_witness :
  let env := steady 40000 in
  let fan := Fan.mk 14 (Some 0%Z) in
  Fan.close env fan [] =
    (Ok (Fan.mk 14 None), [EvLog LogExiting; EvGpiochipClose 0]) /\
  Fan.close env (Fan.mk 14 None) [EvLog LogExiting; EvGpiochipClose 0] =
    (Ok (Fan.mk 14 None), [EvLog LogExiting; EvGpiochipClose 0]).
Proof.
  split; [reflexivity|].
  apply (close_twice (steady 40000) (Fan.mk 14 (Some 0%Z)) (Fan.mk 14 None)
           [] [EvLog LogExiting; EvGpiochipClose 0]).
  reflexivity.
Defined.

(** C2: the damping decision of one pass of the loop, for any bounds with
    [tmax <> tmin], an open fan and a sensor value, with [speed] the duty
    cycle computed from that value: if
    [abs (speed - previous_speed) <= epsilon], the pass makes no hardware
    write and [previous_speed] stays as it was; otherwise the pass makes
    exactly one write, of [speed], and [previous_speed] becomes [speed]
    (when the hardware rejects the write, its error leaves the loop). *)
Theorem damping_decision (env : environment) (fan : Fan.t) (handle : Z)
    (tmin tmax interval epsilon previous_speed raw : Q) (tr : trace) :
  ~ tmax == tmin -> 0 <= interval ->
  Fan.h fan = Some handle ->
  thermal_zone0 env tr = FileValue raw ->
  exists speed,
    (forall tr0, target_speed tmin tmax (raw / 1000) tr0 = (Ok speed, tr0)) /\
    let tr1 := tr ++ [EvReadThermal; EvLog (LogTemperature (raw / 1000))] in
    (Qabs (speed - previous_speed) <= epsilon ->
     control_body env fan tmin tmax interval epsilon previous_speed tr =
       (Ok previous_speed, tr1 ++ [EvSleep interval])) /\
    (~ Qabs (speed - previous_speed) <= epsilon ->
     let tr2 := tr1 ++ [EvLog (LogFanSpeed speed)] in
     let write := EvTxPwm handle (Fan.pin fan) Fan.FREQ speed in
     control_body env fan tmin tmax interval epsilon previous_speed tr =
       if lg_tx_pwm env tr2 handle (Fan.pin fan) Fan.FREQ speed
       then (Ok speed, tr2 ++ [write; EvSleep interval])
       else (Raise LgpioError, tr2 ++ [write])).
Proof.
  intros Hlt Hint Hfan Hraw. eexists.
  split; [intro tr0; apply target_speed_ok; exact Hlt|].
  set (speed := py_min _ _).
  assert (Hbody :
    control_body env fan tmin tmax interval epsilon previous_speed tr =
    ((previous_speed' <-
        (if Qlt_bool epsilon (Qabs (speed - previous_speed))
         then Fan.set env fan speed ;; ret speed
         else ret previous_speed) ;;
      sleep interval ;; ret previous_speed')
       (tr ++ [EvReadThermal; EvLog (LogTemperature (raw / 1000))]))).
  { unfold control_body.
    rewrite (bind_ok _ _ _ _ _ (get_temperature_value env tr raw Hraw)).
    now rewrite (bind_ok _ _ _ _ _ (target_speed_ok tmin tmax _ _ Hlt)). }
  rewrite Hbody. clear Hbody. simpl. split.
  - intro Hle. apply Qlt_bool_false in Hle. rewrite Hle.
    unfold bind at 1. unfold ret at 1.
    now rewrite (bind_ok _ _ _ _ _ (sleep_ok interval _ Hint)).
  - intro Hgt. apply Qnot_le_lt, Qlt_bool_true in Hgt. rewrite Hgt.
    unfold bind at 1. unfold bind at 1.
    rewrite (Fan_set_open env fan handle speed _ Hfan). simpl.
    destruct (lg_tx_pwm env _ handle (Fan.pin fan) Fan.FREQ speed).
    + unfold ret at 1.
      rewrite (bind_ok _ _ _ _ _ (sleep_ok interval _ Hint)).
      unfold ret. now rewrite <- app_assoc.
    + reflexivity.
Qed.

Lemma damping_decision_witness :
  exists speed,
    (forall tr0, target_speed 50 75 (61000 / 1000) tr0 = (Ok speed, tr0)) /\
    let tr1 := [] ++ [EvReadThermal; EvLog (LogTemperature (61000 / 1000))] in
    (Qabs (speed - 40) <= 1 ->
     control_body (steady 61000) (Fan.mk 14 (Some 0%Z)) 50 75 10 1 40 [] =
       (Ok 40, tr1 ++ [EvSleep 10])) /\
    (~ Qabs (speed - 40) <= 1 ->
     let tr2 := tr1 ++ [EvLog (LogFanSpeed speed)] in
     let write := EvTxPwm 0 14 Fan.FREQ speed in
     control_body (steady 61000) (Fan.mk 14 (Some 0%Z)) 50 75 10 1 40 [] =
       if lg_tx_pwm (steady 61000) tr2 0 14 Fan.FREQ speed
       then (Ok speed, tr2 ++ [write; EvSleep 10])
       else (Raise LgpioError, tr2 ++ [write])).
Proof.
  apply (damping_decision (steady 61000) (Fan.mk 14 (Some 0%Z)) 0
           50 75 10 1 40 61000 []).
  - discriminate.
  - discriminate.
  - reflexivity.
  - reflexivity.
Defined.

(** ** Whole runs *)

Lemma while_true_after {S} (body : S -> M S) k s tr s' tr' :
  iterations k body s tr = (Ok s', tr') ->
  forall n, while_true (k + n) body s tr = while_true n body s' tr'.
Proof.
  revert s tr. induction k as [|k IH]; intros s tr H n; simpl in *.
  - unfold ret in H. now inversion H.
  - unfold bind in *. destruct (body s tr) as [[s1|e|] tr1]; try discriminate.
    now apply IH.
Qed.

Lemma control_body_read_failure env fan tmin tmax interval epsilon
    previous_speed tr e tr' :
  get_temperature env tr = (Raise e, tr') ->
  control_body env fan tmin tmax interval epsilon previous_speed tr =
    (Raise e, tr').
Proof. intro H. unfold control_body. now apply bind_raise. Qed.

(** Scenario A.  The claim that the writes are 0, 40, 44, 100 fails: the
    first pass computes 0, which is within [epsilon] of the initial
    [previous_speed = 0], so nothing is written for it. *)
Lemma scenario_A_writes_not_four :
  ~ Forall2 Qeq
      (pwm_writes (snd (run scenario_A 4 0 14 50 75 10 1 [])))
      [0; 40; 44; 100].
Proof.
  intro H. apply Forall2_length in H. vm_compute in H. discriminate.
Qed.

(** C3 (amended): with [tmin = 50], [tmax = 75], [epsilon = 1] and the
    temperatures 40, 60, 61, 90, the four passes of the loop issue exactly
    the hardware writes 40, 44, 100, in that order; the first pass, whose
    duty cycle is 0, writes nothing. *)
Theorem scenario_A_writes :
  Forall2 Qeq
    (pwm_writes (snd (run scenario_A 4 0 14 50 75 10 1 [])))
    [40; 44; 100] /\
  fst (run scenario_A 4 0 14 50 75 10 1 []) = Running.
Proof.
  split; [|vm_compute; reflexivity].
  vm_compute. repeat constructor.
Qed.

(** With equal bounds the run is not rejected before the loop: the sensor is
    read in the loop body before the division by [tmax - tmin] raises. *)
Lemma equal_bounds_not_rejected_before_loop :
  ~ rejected_before_loop (run (steady 60000) 1 0 14 50 50 10 1 []).
Proof.
  intros [_ H]. vm_compute in H. discriminate.
Qed.

(** C4 (amended): with [tmax == tmin] nothing is validated before the loop.
    On a board whose fan opens and whose sensor can be read, [run] enters the
    loop body, reads the sensor once, and the first pass then raises
    [ZeroDivisionError] before any hardware write or sleep; the fan is closed
    once and the error leaves [run] (the error of the close itself, should
    that fail). *)
Theorem equal_bounds_fail_in_first_pass (env : environment) (fuel : nat)
    (index pin handle : Z) (tmin tmax interval epsilon raw : Q)
    (tr0 : trace) :
  tmax == tmin ->
  Fan.__init__ env index pin [] = (Ok (Fan.mk pin (Some handle)), tr0) ->
  thermal_zone0 env tr0 = FileValue raw ->
  let tr1 := tr0 ++ [EvReadThermal; EvLog (LogTemperature (raw / 1000))] in
  run env (S fuel) index pin tmin tmax interval epsilon [] =
    (if lg_gpiochip_close env (tr1 ++ [EvLog LogExiting]) handle
     then Raise ZeroDivisionError else Raise LgpioError,
     tr1 ++ [EvLog LogExiting; EvGpiochipClose handle]) /\
  reads (tr1 ++ [EvLog LogExiting; EvGpiochipClose handle])
    = S (reads tr0) /\
  pwm_writes (tr1 ++ [EvLog LogExiting; EvGpiochipClose handle])
    = pwm_writes tr0.
Proof.
  intros Heq Hinit Hraw tr1. split; [|split].
  - unfold run. rewrite (bind_ok _ _ _ _ _ Hinit).
    unfold Fan.__enter__. unfold bind at 1. unfold ret at 1.
    unfold finally, control. simpl while_true.
    assert (B : forall k : Q -> M Empty_set,
      (s' <- control_body env (Fan.mk pin (Some handle))
               tmin tmax interval epsilon 0 ;; k s') tr0
      = (Raise ZeroDivisionError, tr1)).
    { intro k. apply bind_raise. unfold control_body.
      rewrite (bind_ok _ _ _ _ _ (get_temperature_value env tr0 raw Hraw)).
      apply bind_raise. now apply target_speed_zero_division. }
    rewrite B. unfold Fan.__exit__, bind.
    rewrite (Fan_close_open env (Fan.mk pin (Some handle)) handle tr1 eq_refl).
    simpl. now destruct (lg_gpiochip_close env _ handle).
  - unfold tr1, reads. rewrite <- app_assoc, filter_app, length_app.
    simpl. lia.
  - unfold tr1. rewrite <- app_assoc, pwm_writes_app. apply app_nil_r.
Qed.

Lemma equal_bounds_fail_in_first_pass_witness :
  let tr0 := [EvLog LogInitialising; EvGpiochipOpen 0;
              EvGpioClaimOutput 0 14] in
  let tr1 := tr0 ++ [EvReadThermal; EvLog (LogTemperature (60000 / 1000))] in
  run (steady 60000) 3 0 14 50 50 10 1 [] =
    (if lg_gpiochip_close (steady 60000) (tr1 ++ [EvLog LogExiting]) 0
     then Raise ZeroDivisionError else Raise LgpioError,
     tr1 ++ [EvLog LogExiting; EvGpiochipClose 0]) /\
  reads (tr1 ++ [EvLog LogExiting; EvGpiochipClose 0]) = S (reads tr0) /\
  pwm_writes (tr1 ++ [EvLog LogExiting; EvGpiochipClose 0]) = pwm_writes tr0.
Proof.
  apply (equal_bounds_fail_in_first_pass (steady 60000) 2 0 14 0
           50 50 10 1 60000); reflexivity.
Defined.

(** C8: a sensor read that fails in the loop ends the run.  When the fan has
    been opened, [k] passes of the loop have completed and the next sensor
    read raises [e], then [run] (given more than [k] passes) does not read
    again or write a substitute: after the failed read it only closes the
    fan, with exactly one [gpiochip_close] in the whole trace, and ends in an
    exception, which is [e] itself (or the error of the close, should the
    close fail). *)
Theorem sensor_failure_ends_run (env : environment) (index pin handle : Z)
    (tmin tmax interval epsilon : Q) (tr0 : trace)
    (k : nat) (previous_speed : Q) (trk : trace) (e : exn) (trk' : trace) :
  Fan.__init__ env index pin [] = (Ok (Fan.mk pin (Some handle)), tr0) ->
  iterations k
    (control_body env (Fan.mk pin (Some handle)) tmin tmax interval epsilon)
    0 tr0 = (Ok previous_speed, trk) ->
  get_temperature env trk = (Raise e, trk') ->
  forall fuel : nat, (k < fuel)%nat ->
  run env fuel index pin tmin tmax interval epsilon [] =
    (if lg_gpiochip_close env (trk' ++ [EvLog LogExiting]) handle
     then Raise e else Raise LgpioError,
     trk' ++ [EvLog LogExiting; EvGpiochipClose handle]) /\
  trk' = trk ++ [EvReadThermal] /\
  closes (trk' ++ [EvLog LogExiting; EvGpiochipClose handle]) = 1%nat.
Proof.
  intros Hinit Hiter Hread fuel Hfuel.
  destruct (get_temperature_failure env trk e trk' Hread) as [Htrk' _].
  split; [|split; [exact Htrk'|]].
  - replace fuel with (k + S (fuel - S k))%nat by lia.
    unfold run. rewrite (bind_ok _ _ _ _ _ Hinit).
    unfold Fan.__enter__. unfold bind at 1. unfold ret at 1.
    unfold finally, control.
    rewrite (while_true_after _ k _ _ _ _ Hiter). simpl while_true.
    rewrite (bind_raise _ _ _ _ _
               (control_body_read_failure env _ tmin tmax interval epsilon
                  previous_speed trk e trk' Hread)).
    unfold Fan.__exit__, bind.
    rewrite (Fan_close_open env (Fan.mk pin (Some handle)) handle trk'
               eq_refl).
    simpl. now destruct (lg_gpiochip_close env _ handle).
  - destruct (appends_Fan_init not_close env index pin
                eq_refl eq_refl (fun _ => eq_refl) [])
      as (new0 & E0 & F0 & _).
    rewrite Hinit in E0. simpl in E0.
    destruct (appends_iterations not_close any
                (control_body env (Fan.mk pin (Some handle))
                   tmin tmax interval epsilon)
                (fun s _ => control_body_never_closes env _ tmin tmax
                              interval epsilon s)
                k 0 I tr0)
      as (newk & Ek & Fk & _).
    rewrite Hiter in Ek. simpl in Ek.
    rewrite Htrk', Ek, E0, !closes_app.
    rewrite (closes_none new0 F0), (closes_none newk Fk). reflexivity.
Qed.

Lemma sensor_failure_ends_run_witness :
  exists trk',
    run scenario_B 3 0 14 50 75 10 1 [] =
      (if lg_gpiochip_close scenario_B (trk' ++ [EvLog LogExiting]) 0
       then Raise ValueError else Raise LgpioError,
       trk' ++ [EvLog LogExiting; EvGpiochipClose 0]) /\
    closes (trk' ++ [EvLog LogExiting; EvGpiochipClose 0]) = 1%nat.
Proof.
  eexists.
  refine (let H := sensor_failure_ends_run scenario_B 0 14 0 50 75 10 1
                     _ 2 _ _ ValueError _ _ _ _ 3%nat _ in
          conj (proj1 H) (proj2 (proj2 H))).
  - reflexivity.
  - reflexivity.
  - reflexivity.
  - apply Nat.lt_succ_diag_r.
Defined.

(** ** One pass of the loop, in full *)

Lemma target_speed_cases tmin tmax t :
  (tmax == tmin /\
   forall tr, target_speed tmin tmax t tr = (Raise ZeroDivisionError, tr)) \/
  (~ tmax == tmin /\
   exists speed, 0 <= speed <= 100 /\
     forall tr, target_speed tmin tmax t tr = (Ok speed, tr)).
Proof.
  destruct (Qeq_dec tmax tmin) as [E|E].
  - left. split; [exact E|]. intro tr. now apply target_speed_zero_division.
  - right. split; [exact E|]. eexists. split; [apply clamp_range|].
    intro tr. now apply target_speed_ok.
Qed.

Lemma control_body_completed env fan tmin tmax interval epsilon
    previous_speed tr p tr' :
  control_body env fan tmin tmax interval epsilon previous_speed tr
    = (Ok p, tr') ->
  exists raw speed,
    thermal_zone0 env tr = FileValue raw /\
    (forall tr0, target_speed tmin tmax (raw / 1000) tr0 = (Ok speed, tr0)) /\
    0 <= interval /\
    let tr1 := tr ++ [EvReadThermal; EvLog (LogTemperature (raw / 1000))] in
    ((Qabs (speed - previous_speed) <= epsilon /\ p = previous_speed /\
      tr' = tr1 ++ [EvSleep interval]) \/
     (epsilon < Qabs (speed - previous_speed) /\ p = speed /\
      exists handle,
        Fan.h fan = Some handle /\
        tr' = tr1 ++ [EvLog (LogFanSpeed speed);
                      EvTxPwm handle (Fan.pin fan) Fan.FREQ speed;
                      EvSleep interval])).
Proof.
  unfold control_body.
  destruct (thermal_zone0 env tr) as [| |raw] eqn:Hraw.
  - unfold get_temperature, bind, history, emit, raise. rewrite Hraw.
    discriminate.
  - unfold get_temperature, bind, history, emit, raise. rewrite Hraw.
    discriminate.
  - rewrite (bind_ok _ _ _ _ _ (get_temperature_value env tr raw Hraw)).
    destruct (target_speed_cases tmin tmax (raw / 1000))
      as [[_ Hts]|[_ (speed & _ & Hts)]].
    + rewrite (bind_raise _ _ _ _ _ (Hts _)). discriminate.
    + rewrite (bind_ok _ _ _ _ _ (Hts _)).
      intro H. exists raw, speed. split; [reflexivity|]. split; [exact Hts|].
      destruct (Qlt_bool interval 0) eqn:Hint.
      { exfalso. revert H. unfold bind, sleep. rewrite Hint.
        destruct (Qlt_bool epsilon (Qabs (speed - previous_speed))).
        - destruct (Fan.set env fan speed _) as [[[]|e|] tr2];
            unfold ret, raise; discriminate.
        - unfold ret, raise. discriminate. }
      apply Qlt_bool_false in Hint. split; [exact Hint|].
      destruct (Qlt_bool epsilon (Qabs (speed - previous_speed))) eqn:Heps.
      * right. apply Qlt_bool_true in Heps. split; [exact Heps|].
        revert H. unfold bind at 1. unfold bind at 1.
        destruct (Fan.h fan) as [handle|] eqn:Hh.
        -- rewrite (Fan_set_open env fan handle speed _ Hh). cbv zeta.
           destruct (lg_tx_pwm env _ handle (Fan.pin fan) Fan.FREQ speed);
             [|discriminate].
           unfold ret at 1.
           rewrite (bind_ok _ _ _ _ _ (sleep_ok interval _ Hint)).
           unfold ret. intro H. inversion H; subst.
           split; [reflexivity|]. exists handle. split; [reflexivity|].
           now rewrite <- !app_assoc.
        -- unfold Fan.set, bind, emit, raise. rewrite Hh. discriminate.
      * left. apply Qlt_bool_false in Heps. split; [exact Heps|].
        revert H. unfold bind at 1. unfold ret at 1.
        rewrite (bind_ok _ _ _ _ _ (sleep_ok interval _ Hint)).
        unfold ret. intro H. inversion H; subst. split; reflexivity.
Qed.

(** One pass with a readable sensor and unequal bounds, written out. *)
Lemma control_body_unfolded env fan tmin tmax interval epsilon
    previous_speed tr raw speed :
  thermal_zone0 env tr = FileValue raw ->
  (forall tr0, target_speed tmin tmax (raw / 1000) tr0 = (Ok speed, tr0)) ->
  control_body env fan tmin tmax interval epsilon previous_speed tr =
    let seen := [EvReadThermal; EvLog (LogTemperature (raw / 1000))] in
    if Qlt_bool epsilon (Qabs (speed - previous_speed)) then
      match Fan.h fan with
      | Some handle =>
          let write := EvTxPwm handle (Fan.pin fan) Fan.FREQ speed in
          if lg_tx_pwm env (tr ++ seen ++ [EvLog (LogFanSpeed speed)])
               handle (Fan.pin fan) Fan.FREQ speed
          then
            if Qlt_bool interval 0
            then (Raise ValueError,
                  tr ++ seen ++ [EvLog (LogFanSpeed speed); write])
            else (Ok speed,
                  tr ++ seen ++ [EvLog (LogFanSpeed speed); write;
                                 EvSleep interval])
          else (Raise LgpioError,
                tr ++ seen ++ [EvLog (LogFanSpeed speed); write])
      | None =>
          (Raise TypeError, tr ++ seen ++ [EvLog (LogFanSpeed speed)])
      end
    else
      if Qlt_bool interval 0
      then (Raise ValueError, tr ++ seen)
      else (Ok previous_speed, tr ++ seen ++ [EvSleep interval]).
Proof.
  intros Hraw Hts. unfold control_body.
  rewrite (bind_ok _ _ _ _ _ (get_temperature_value env tr raw Hraw)).
  rewrite (bind_ok _ _ _ _ _ (Hts _)). cbv zeta.
  destruct (Qlt_bool epsilon (Qabs (speed - previous_speed))).
  - unfold bind at 1. unfold bind at 1.
    destruct (Fan.h fan) as [handle|] eqn:Hh.
    + rewrite (Fan_set_open env fan handle speed _ Hh). cbv zeta.
      rewrite <- !app_assoc.
      destruct (lg_tx_pwm env _ handle (Fan.pin fan) Fan.FREQ speed);
        [|reflexivity].
      unfold ret at 1. unfold bind, sleep.
      destruct (Qlt_bool interval 0); unfold raise, emit, ret;
        rewrite <- ?app_assoc; reflexivity.
    + unfold Fan.set, bind, emit, raise. rewrite Hh.
      rewrite <- ?app_assoc. reflexivity.
  - unfold bind at 1. unfold ret at 1. unfold bind, sleep.
    destruct (Qlt_bool interval 0); unfold raise, emit, ret;
      rewrite <- ?app_assoc; reflexivity.
Qed.

Lemma control_body_pass env fan tmin tmax interval epsilon previous_speed
    tr o tr' :
  control_body env fan tmin tmax interval epsilon previous_speed tr
    = (o, tr') ->
  exists new,
    tr' = tr ++ new /\
    o <> Running /\
    reads new = 1%nat /\
    sleeps new = (if completed o then 1 else 0)%nat /\
    Forall (on_fan fan) new /\
    match o with
    | Ok p => p = last (pwm_writes new) previous_speed
    | _ => True
    end /\
    (pwm_writes new = [] \/
     exists raw speed,
       thermal_zone0 env tr = FileValue raw /\
       (forall tr0,
          target_speed tmin tmax (raw / 1000) tr0 = (Ok speed, tr0)) /\
       epsilon < Qabs (speed - previous_speed) /\
       pwm_writes new = [speed]).
Proof.
  destruct (thermal_zone0 env tr) as [| |raw] eqn:Hraw.
  1,2: unfold control_body, get_temperature, bind, history, emit, raise;
    rewrite Hraw; intro H; inversion H; subst; exists [EvReadThermal];
    repeat split; try discriminate; auto; repeat constructor.
  destruct (target_speed_cases tmin tmax (raw / 1000))
    as [[_ Hts]|[_ (speed & _ & Hts)]].
  { unfold control_body.
    rewrite (bind_ok _ _ _ _ _ (get_temperature_value env tr raw Hraw)).
    rewrite (bind_raise _ _ _ _ _ (Hts _)).
    intro H; inversion H; subst.
    exists [EvReadThermal; EvLog (LogTemperature (raw / 1000))].
    repeat split; try discriminate; auto. repeat constructor. }
  rewrite (control_body_unfolded env fan tmin tmax interval epsilon
             previous_speed tr raw speed Hraw Hts). cbv zeta.
  destruct (Qlt_bool epsilon (Qabs (speed - previous_speed))) eqn:Heps.
  - apply Qlt_bool_true in Heps.
    destruct (Fan.h fan) as [handle|] eqn:Hh;
      [destruct (lg_tx_pwm env _ handle (Fan.pin fan) Fan.FREQ speed);
       [destruct (Qlt_bool interval 0)|]|];
      intro H; inversion H; subst; eexists; (split; [reflexivity|]);
      (split; [discriminate|]); (split; [reflexivity|]);
      (split; [reflexivity|]);
      (split; [cbn [app]; repeat constructor; auto|]);
      (split; [first [exact I | reflexivity]|]);
      first [ right; exists raw, speed; repeat split; auto; fail
            | left; reflexivity ].
  - destruct (Qlt_bool interval 0);
      intro H; inversion H; subst; eexists; (split; [reflexivity|]);
      (split; [discriminate|]); (split; [reflexivity|]);
      (split; [reflexivity|]);
      (split; [cbn [app]; repeat constructor|]);
      (split; [first [exact I | reflexivity]|]); left; reflexivity.
Qed.

Lemma reads_app tr1 tr2 : reads (tr1 ++ tr2) = (reads tr1 + reads tr2)%nat.
Proof. unfold reads. now rewrite filter_app, length_app. Qed.

Lemma sleeps_app tr1 tr2 :
  sleeps (tr1 ++ tr2) = (sleeps tr1 + sleeps tr2)%nat.
Proof. unfold sleeps. now rewrite filter_app, length_app. Qed.

Lemma last_cons {A} (a d : A) (l : list A) : last (a :: l) d = last l a.
Proof.
  revert a d. induction l as [|b l IH]; intros a d; [reflexivity|].
  change (last (a :: b :: l) d) with (last (b :: l) d).
  now rewrite (IH b d), (IH b a).
Qed.

Lemma on_fan_no_close fan new : Forall (on_fan fan) new -> closes new = 0%nat.
Proof.
  unfold closes. induction 1 as [|ev rest Hev _ IH]; [reflexivity|].
  destruct ev; simpl in *; try exact IH. contradiction.
Qed.

Section Loop.

Variables (env : environment) (fan : Fan.t).
Variables (tmin tmax interval epsilon : Q).

Let body := control_body env fan tmin tmax interval epsilon.

Lemma iterations_summary (n : nat) :
  forall previous_speed tr p tr',
  iterations n body previous_speed tr = (Ok p, tr') ->
  exists new,
    tr' = tr ++ new /\
    reads new = n /\ sleeps new = n /\
    (length (pwm_writes new) <= n)%nat /\
    p = last (pwm_writes new) previous_speed /\
    apart epsilon previous_speed (pwm_writes new) /\
    Forall (on_fan fan) new.
Proof.
  induction n as [|n IH]; intros previous_speed tr p tr' H; simpl in H.
  - unfold ret in H. inversion H; subst. exists []. rewrite app_nil_r.
    repeat split; auto; constructor.
  - unfold bind in H.
    destruct (body previous_speed tr) as [[p1|e|] tr1] eqn:E;
      try discriminate.
    destruct (control_body_pass _ _ _ _ _ _ _ _ _ _ E)
      as (new1 & -> & _ & R1 & S1 & F1 & P1 & W1).
    destruct (IH _ _ _ _ H) as (new2 & -> & R2 & S2 & L2 & P2 & A2 & F2).
    exists (new1 ++ new2). rewrite app_assoc. split; [reflexivity|].
    rewrite reads_app, sleeps_app, pwm_writes_app, R1, S1, R2, S2.
    split; [reflexivity|]. split; [reflexivity|].
    assert (F : Forall (on_fan fan) (new1 ++ new2))
      by (apply Forall_app; now split).
    destruct W1 as [W1|(raw & speed & _ & _ & Hlt & W1)];
      rewrite W1 in *; simpl in P1; subst p1; simpl app.
    + split; [lia|]. split; [exact P2|]. split; [exact A2|exact F].
    + split; [simpl; lia|]. split; [now rewrite last_cons|].
      split; [split; assumption|exact F].
Qed.

Lemma while_true_summary (fuel : nat) :
  forall previous_speed tr o tr',
  while_true fuel body previous_speed tr = (o, tr') ->
  exists new,
    tr' = tr ++ new /\
    (reads new <= fuel)%nat /\
    (sleeps new <= reads new)%nat /\
    (length (pwm_writes new) <= reads new)%nat /\
    apart epsilon previous_speed (pwm_writes new) /\
    Forall (on_fan fan) new /\
    (o = Running -> reads new = fuel /\ sleeps new = fuel).
Proof.
  induction fuel as [|n IH]; intros previous_speed tr o tr' H; simpl in H.
  - unfold running in H. inversion H; subst. exists []. rewrite app_nil_r.
    repeat split; auto; constructor.
  - unfold bind in H.
    destruct (body previous_speed tr) as [o1 tr1] eqn:E.
    destruct (control_body_pass _ _ _ _ _ _ _ _ _ _ E)
      as (new1 & -> & Hrun & R1 & S1 & F1 & P1 & W1).
    destruct o1 as [p1|e|]; [| |now contradiction Hrun].
    + destruct (IH _ _ _ _ H) as (new2 & -> & R2 & S2 & L2 & A2 & F2 & G2).
      exists (new1 ++ new2). rewrite app_assoc. split; [reflexivity|].
      rewrite reads_app, sleeps_app, pwm_writes_app, R1, S1.
      simpl completed. cbv iota.
      split; [lia|]. split; [lia|].
      assert (F : Forall (on_fan fan) (new1 ++ new2))
        by (apply Forall_app; now split).
      assert (G : o = Running ->
                  (1 + reads new2 = S n /\ 1 + sleeps new2 = S n)%nat)
        by (intro Ho; destruct (G2 Ho); lia).
      destruct W1 as [W1|(raw & speed & _ & _ & Hlt & W1)];
        rewrite W1 in *; simpl in P1; subst p1; simpl app.
      * split; [lia|]. split; [exact A2|]. split; [exact F|exact G].
      * split; [simpl; lia|]. split; [split; assumption|].
        split; [exact F|exact G].
    + inversion H; subst. exists new1. split; [reflexivity|].
      rewrite R1, S1. simpl completed. cbv iota.
      split; [lia|]. split; [lia|].
      destruct W1 as [W1|(raw & speed & _ & _ & Hlt & W1)]; rewrite W1;
        simpl; repeat split; auto; try lia; discriminate.
Qed.

(** A pass that raises after [k] completed ones ends [control]. *)
Lemma control_stops (k : nat) previous_speed tr0 trk e trk' :
  iterations k body 0 tr0 = (Ok previous_speed, trk) ->
  body previous_speed trk = (Raise e, trk') ->
  forall fuel, (k < fuel)%nat ->
  control env fuel fan tmin tmax interval epsilon tr0 = (Raise e, trk').
Proof.
  intros Hiter Hbody fuel Hfuel.
  replace fuel with (k + S (fuel - S k))%nat by lia.
  unfold control. fold body.
  rewrite (while_true_after _ k _ _ _ _ Hiter). simpl while_true.
  now rewrite (bind_raise _ _ _ _ _ Hbody).
Qed.

End Loop.

(** ** [Fan.__init__] and [run], case by case *)

Lemma Fan_init_cases env index pin :
  let opened := [EvLog LogInitialising; EvGpiochipOpen index] in
  Fan.__init__ env index pin [] =
    match lg_gpiochip_open env [EvLog LogInitialising] index with
    | None => (Raise LgpioError, opened)
    | Some handle =>
        if lg_gpio_claim_output env opened handle pin
        then (Ok (Fan.mk pin (Some handle)),
              opened ++ [EvGpioClaimOutput handle pin])
        else (Raise LgpioError, opened ++ [EvGpioClaimOutput handle pin])
    end.
Proof.
  unfold Fan.__init__, gpiochip_open, gpio_claim_output, bind, history, emit,
    ret, raise. simpl.
  destruct (lg_gpiochip_open env _ index) as [handle|]; [|reflexivity].
  now destruct (lg_gpio_claim_output env _ handle pin).
Qed.

Lemma Fan_init_ok_inv env index pin fan tr0 :
  Fan.__init__ env index pin [] = (Ok fan, tr0) ->
  exists handle,
    lg_gpiochip_open env [EvLog LogInitialising] index = Some handle /\
    fan = Fan.mk pin (Some handle) /\
    tr0 = [EvLog LogInitialising; EvGpiochipOpen index;
           EvGpioClaimOutput handle pin].
Proof.
  rewrite Fan_init_cases. cbv zeta.
  destruct (lg_gpiochip_open env _ index) as [handle|]; [|discriminate].
  destruct (lg_gpio_claim_output env _ handle pin); [|discriminate].
  intro H. inversion H; subst. now exists handle.
Qed.

(** [run] once the fan is open: the outcome of [control] decides. *)
Lemma run_after_init env fuel index pin tmin tmax interval epsilon
    handle tr0 o tr' :
  Fan.__init__ env index pin [] = (Ok (Fan.mk pin (Some handle)), tr0) ->
  control env fuel (Fan.mk pin (Some handle)) tmin tmax interval epsilon tr0
    = (o, tr') ->
  run env fuel index pin tmin tmax interval epsilon [] =
    match o with
    | Ok a => match a with end
    | Raise e =>
        (if lg_gpiochip_close env (tr' ++ [EvLog LogExiting]) handle
         then Raise e else Raise LgpioError,
         tr' ++ [EvLog LogExiting; EvGpiochipClose handle])
    | Running => (Running, tr')
    end.
Proof.
  intros Hinit Hc. unfold run. rewrite (bind_ok _ _ _ _ _ Hinit).
  unfold Fan.__enter__. unfold bind at 1. unfold ret at 1.
  unfold finally. rewrite Hc. destruct o as [[]|e|]; [|reflexivity].
  unfold Fan.__exit__, bind.
  rewrite (Fan_close_open env (Fan.mk pin (Some handle)) handle tr' eq_refl).
  cbv zeta. now destruct (lg_gpiochip_close env _ handle).
Qed.

(** ** Further properties of the loop and of [run] *)

(** X1: once the fan has been opened, [run] releases it on every way out of
    the loop.  A run that ends in an exception ends with the two events of
    [Fan.close], the only [gpiochip_close] of the whole trace, on the
    fan's handle; a run whose loop is still going has closed nothing. *)
Theorem run_releases_fan (env : environment) (fuel : nat) (index pin : Z)
    (tmin tmax interval epsilon : Q) (fan : Fan.t) (tr0 : trace) :
  Fan.__init__ env index pin [] = (Ok fan, tr0) ->
  let r := run env fuel index pin tmin tmax interval epsilon [] in
  (fst r = Running /\ closes (snd r) = 0%nat) \/
  (exists e handle before,
     fst r = Raise e /\
     Fan.h fan = Some handle /\
     snd r = before ++ [EvLog LogExiting; EvGpiochipClose handle] /\
     closes before = 0%nat).
Proof.
  intros Hinit r.
  destruct (Fan_init_ok_inv _ _ _ _ _ Hinit) as (handle & _ & -> & Htr0).
  destruct (control env fuel (Fan.mk pin (Some handle))
              tmin tmax interval epsilon tr0) as [o tr'] eqn:Hc.
  pose proof (run_after_init _ _ _ _ _ _ _ _ _ _ _ _ Hinit Hc) as Hrun.
  unfold control in Hc.
  destruct (while_true_summary _ _ _ _ _ _ _ _ _ _ _ Hc)
    as (new & -> & _ & _ & _ & _ & F & _).
  assert (Hcl : closes (tr0 ++ new) = 0%nat).
  { rewrite closes_app, (on_fan_no_close _ _ F). now subst tr0. }
  unfold r. rewrite Hrun. destruct o as [[]|e|].
  - right. exists (if lg_gpiochip_close env ((tr0 ++ new) ++ [EvLog LogExiting])
                        handle then e else LgpioError), handle, (tr0 ++ new).
    repeat split; auto. simpl.
    now destruct (lg_gpiochip_close env _ handle).
  - left. now split.
Qed.

Lemma run_releases_fan_witness :
  let r := run scenario_B 5 0 14 50 75 10 1 [] in
  (fst r = Running /\ closes (snd r) = 0%nat) \/
  (exists e handle before,
     fst r = Raise e /\
     Fan.h (Fan.mk 14 (Some 0%Z)) = Some handle /\
     snd r = before ++ [EvLog LogExiting; EvGpiochipClose handle] /\
     closes before = 0%nat).
Proof.
  apply (run_releases_fan scenario_B 5 0 14 50 75 10 1
           (Fan.mk 14 (Some 0%Z))
           [EvLog LogInitialising; EvGpiochipOpen 0;
            EvGpioClaimOutput 0 14]).
  reflexivity.
Defined.

(** X2: when [gpiochip_open] fails, [run] raises its error after the log
    record and the failed call: no pin is claimed, the loop is not entered
    and nothing is closed. *)
Theorem run_chip_unavailable (env : environment) (fuel : nat)
    (index pin : Z) (tmin tmax interval epsilon : Q) :
  lg_gpiochip_open env [EvLog LogInitialising] index = None ->
  run env fuel index pin tmin tmax interval epsilon [] =
    (Raise LgpioError, [EvLog LogInitialising; EvGpiochipOpen index]).
Proof.
  intro H. unfold run. apply bind_raise.
  rewrite Fan_init_cases. cbv zeta. now rewrite H.
Qed.

Lemma run_chip_unavailable_witness :
  run (board (fun _ => FileValue 60000) None true true true)
    3 0 14 50 75 10 1 [] =
    (Raise LgpioError, [EvLog LogInitialising; EvGpiochipOpen 0]).
Proof.
  apply (run_chip_unavailable
           (board (fun _ => FileValue 60000) None true true true)
           3 0 14 50 75 10 1).
  reflexivity.
Defined.

(** X3: when the chip opens but [gpio_claim_output] fails, [run] raises
    its error without entering the loop, and the chip handle that was opened
    is not closed: [__init__] raised, so the [with] block never began. *)
Theorem run_pin_unavailable (env : environment) (fuel : nat)
    (index pin handle : Z) (tmin tmax interval epsilon : Q) :
  lg_gpiochip_open env [EvLog LogInitialising] index = Some handle ->
  lg_gpio_claim_output env
    [EvLog LogInitialising; EvGpiochipOpen index] handle pin = false ->
  run env fuel index pin tmin tmax interval epsilon [] =
    (Raise LgpioError,
     [EvLog LogInitialising; EvGpiochipOpen index;
      EvGpioClaimOutput handle pin]) /\
  closes (snd (run env fuel index pin tmin tmax interval epsilon []))
    = 0%nat.
Proof.
  intros H1 H2.
  assert (E : run env fuel index pin tmin tmax interval epsilon [] =
    (Raise LgpioError,
     [EvLog LogInitialising; EvGpiochipOpen index;
      EvGpioClaimOutput handle pin])).
  { unfold run. apply bind_raise.
    rewrite Fan_init_cases. cbv zeta. now rewrite H1, H2. }
  rewrite E. now split.
Qed.

Lemma run_pin_unavailable_witness :
  let env := board (fun _ => FileValue 60000) (Some 0%Z) false true true in
  run env 3 0 14 50 75 10 1 [] =
    (Raise LgpioError,
     [EvLog LogInitialising; EvGpiochipOpen 0; EvGpioClaimOutput 0 14]) /\
  closes (snd (run env 3 0 14 50 75 10 1 [])) = 0%nat.
Proof.
  apply (run_pin_unavailable
           (board (fun _ => FileValue 60000) (Some 0%Z) false true true)
           3 0 14 0 50 75 10 1); reflexivity.
Defined.

(** X6: after any number of completed passes, [previous_speed] is the duty
    cycle of the last [tx_pwm] made during them, or its initial value when
    none was made. *)
Theorem previous_speed_is_last_write (env : environment) (fan : Fan.t)
    (tmin tmax interval epsilon : Q) (n : nat)
    (previous_speed : Q) (tr : trace) (p : Q) (tr' : trace) :
  iterations n (control_body env fan tmin tmax interval epsilon)
    previous_speed tr = (Ok p, tr') ->
  exists new,
    tr' = tr ++ new /\ p = last (pwm_writes new) previous_speed.
Proof.
  intro H.
  destruct (iterations_summary _ _ _ _ _ _ _ _ _ _ _ H)
    as (new & E & _ & _ & _ & P & _).
  now exists new.
Qed.

Lemma previous_speed_is_last_write_witness :
  exists p tr' new,
    iterations 2
      (control_body (steady 60000) (Fan.mk 14 (Some 0%Z)) 50 75 10 1)
      0 [] = (Ok p, tr') /\
    tr' = [] ++ new /\ p = last (pwm_writes new) 0.
Proof.
  eassert (E : iterations 2
                 (control_body (steady 60000) (Fan.mk 14 (Some 0%Z))
                    50 75 10 1) 0 [] = (Ok _, _)) by reflexivity.
  destruct (previous_speed_is_last_write _ _ _ _ _ _ _ _ _ _ _ E)
    as (new & E1 & E2).
  eexists _, _, new. split; [exact E|]. split; [exact E1|exact E2].
Defined.

(** X7: the writes of the loop never chatter: the first duty cycle written
    is more than [epsilon] away from 0, and every later one more than
    [epsilon] away from the one written before it. *)
Theorem control_writes_apart (env : environment) (fuel : nat) (fan : Fan.t)
    (tmin tmax interval epsilon : Q) (tr : trace) :
  exists new,
    snd (control env fuel fan tmin tmax interval epsilon tr) = tr ++ new /\
    apart epsilon 0 (pwm_writes new).
Proof.
  destruct (control env fuel fan tmin tmax interval epsilon tr)
    as [o tr'] eqn:Hc. unfold control in Hc.
  destruct (while_true_summary _ _ _ _ _ _ _ _ _ _ _ Hc)
    as (new & -> & _ & _ & _ & A & _).
  now exists new.
Qed.

(** X8: the loop reads the sensor once per pass: in [fuel] passes it makes
    at most [fuel] reads, no more writes than reads and no more sleeps than
    reads; while it is still going, it has read and slept exactly [fuel]
    times. *)
Theorem control_counts (env : environment) (fuel : nat) (fan : Fan.t)
    (tmin tmax interval epsilon : Q) (tr : trace) :
  exists new,
    snd (control env fuel fan tmin tmax interval epsilon tr) = tr ++ new /\
    (length (pwm_writes new) <= reads new)%nat /\
    (sleeps new <= reads new)%nat /\
    (reads new <= fuel)%nat /\
    (fst (control env fuel fan tmin tmax interval epsilon tr) = Running ->
     reads new = fuel /\ sleeps new = fuel).
Proof.
  destruct (control env fuel fan tmin tmax interval epsilon tr)
    as [o tr'] eqn:Hc. unfold control in Hc.
  destruct (while_true_summary _ _ _ _ _ _ _ _ _ _ _ Hc)
    as (new & -> & R & S & L & _ & _ & G).
  exists new. repeat split; auto; now apply G.
Qed.

(** X9: the only GPIO call of the loop is [tx_pwm] on the handle and pin of
    its fan at 25 Hz, and it never opens, claims or closes the chip; in
    [run], every [tx_pwm] is on the handle that [gpiochip_open] returned, on
    the pin given to [run], at 25 Hz. *)
Theorem loop_only_drives_its_fan (env : environment) (fuel : nat)
    (fan : Fan.t) (index pin : Z) (tmin tmax interval epsilon : Q)
    (tr : trace) :
  (exists new,
     snd (control env fuel fan tmin tmax interval epsilon tr) = tr ++ new /\
     Forall (on_fan fan) new) /\
  Forall (on_board env index pin)
    (snd (run env fuel index pin tmin tmax interval epsilon [])).
Proof.
  split.
  - destruct (control env fuel fan tmin tmax interval epsilon tr)
      as [o tr'] eqn:Hc. unfold control in Hc.
    destruct (while_true_summary _ _ _ _ _ _ _ _ _ _ _ Hc)
      as (new & -> & _ & _ & _ & _ & F & _).
    now exists new.
  - pose proof (Fan_init_cases env index pin) as Hinit. cbv zeta in Hinit.
    destruct (lg_gpiochip_open env [EvLog LogInitialising] index)
      as [handle|] eqn:Hopen.
    2: { unfold run. rewrite (bind_raise _ _ _ _ _ Hinit).
         repeat constructor. }
    destruct (lg_gpio_claim_output env _ handle pin).
    2: { unfold run. rewrite (bind_raise _ _ _ _ _ Hinit).
         repeat constructor. }
    destruct (control env fuel (Fan.mk pin (Some handle))
                tmin tmax interval epsilon
                ([EvLog LogInitialising; EvGpiochipOpen index] ++
                 [EvGpioClaimOutput handle pin])) as [o tr'] eqn:Hc.
    rewrite (run_after_init _ _ _ _ _ _ _ _ _ _ _ _ Hinit Hc).
    unfold control in Hc.
    destruct (while_true_summary _ _ _ _ _ _ _ _ _ _ _ Hc)
      as (new & -> & _ & _ & _ & _ & F & _).
    assert (B : Forall (on_board env index pin) new).
    { eapply Forall_impl; [|exact F]. intros ev Hev.
      destruct ev; simpl in *; auto.
      destruct Hev as (Hh & -> & ->). inversion Hh; subst. auto. }
    assert (T : Forall (on_board env index pin)
                  (([EvLog LogInitialising; EvGpiochipOpen index] ++
                    [EvGpioClaimOutput handle pin]) ++ new)).
    { apply Forall_app. split; [repeat constructor|exact B]. }
    destruct o as [[]|e|]; [|exact T].
    cbn [snd]. apply Forall_app. split; [exact T|repeat constructor].
Qed.



(** X4: a rejected hardware write ends the run.  When, after [k] completed
    passes, the next pass computes a speed more than [epsilon] away from
    [previous_speed] and [tx_pwm] rejects it, [run] neither sleeps nor reads
    again: it closes the fan and raises the lgpio error. *)
Theorem write_failure_ends_run (env : environment) (index pin handle : Z)
    (tmin tmax interval epsilon : Q) (tr0 : trace)
    (k : nat) (previous_speed : Q) (trk : trace) (raw speed : Q) :
  Fan.__init__ env index pin [] = (Ok (Fan.mk pin (Some handle)), tr0) ->
  iterations k
    (control_body env (Fan.mk pin (Some handle)) tmin tmax interval epsilon)
    0 tr0 = (Ok previous_speed, trk) ->
  thermal_zone0 env trk = FileValue raw ->
  (forall tr, target_speed tmin tmax (raw / 1000) tr = (Ok speed, tr)) ->
  epsilon < Qabs (speed - previous_speed) ->
  lg_tx_pwm env
    (trk ++ [EvReadThermal; EvLog (LogTemperature (raw / 1000));
             EvLog (LogFanSpeed speed)])
    handle pin Fan.FREQ speed = false ->
  forall fuel : nat, (k < fuel)%nat ->
  run env fuel index pin tmin tmax interval epsilon [] =
    (Raise LgpioError,
     trk ++ [EvReadThermal; EvLog (LogTemperature (raw / 1000));
             EvLog (LogFanSpeed speed); EvTxPwm handle pin Fan.FREQ speed;
             EvLog LogExiting; EvGpiochipClose handle]).
Proof.
  intros Hinit Hiter Hraw Hts Heps Hpwm fuel Hfuel.
  assert (Hbody :
    control_body env (Fan.mk pin (Some handle)) tmin tmax interval epsilon
      previous_speed trk =
    (Raise LgpioError,
     trk ++ [EvReadThermal; EvLog (LogTemperature (raw / 1000));
             EvLog (LogFanSpeed speed); EvTxPwm handle pin Fan.FREQ speed])).
  { rewrite (control_body_unfolded _ _ _ _ _ _ _ _ _ _ Hraw Hts).
    cbv zeta. apply Qlt_bool_true in Heps. rewrite Heps.
    cbn [Fan.h Fan.pin app]. now rewrite Hpwm. }
  rewrite (run_after_init _ _ _ _ _ _ _ _ _ _ _ _ Hinit
             (control_stops _ _ _ _ _ _ _ _ _ _ _ _ Hiter Hbody fuel Hfuel)).
  rewrite <- !app_assoc. cbn [app].
  now destruct (lg_gpiochip_close env _ handle).
Qed.

Lemma write_failure_ends_run_witness :
  let env := board (fun _ => FileValue 60000) (Some 0%Z) true false true in
  let tr0 := [EvLog LogInitialising; EvGpiochipOpen 0;
              EvGpioClaimOutput 0 14] in
  exists speed,
    run env 1 0 14 50 75 10 1 [] =
      (Raise LgpioError,
       tr0 ++ [EvReadThermal; EvLog (LogTemperature (60000 / 1000));
               EvLog (LogFanSpeed speed); EvTxPwm 0 14 Fan.FREQ speed;
               EvLog LogExiting; EvGpiochipClose 0]).
Proof.
  intros env tr0. eexists.
  eapply (write_failure_ends_run env 0 14 0 50 75 10 1 tr0 0 0 tr0 60000).
  - reflexivity.
  - reflexivity.
  - reflexivity.
  - intro tr. reflexivity.
  - reflexivity.
  - reflexivity.
  - apply Nat.lt_0_succ.
Defined.

(** X12: with a negative [interval] no pass completes: [time.sleep] raises
    at the end of the first pass, so a run that opened the fan reads the
    sensor once, never sleeps, closes the fan once and ends in an
    exception. *)
Theorem negative_interval_ends_first_pass (env : environment) (fuel : nat)
    (index pin : Z) (tmin tmax interval epsilon : Q)
    (fan : Fan.t) (tr0 : trace) :
  interval < 0 ->
  Fan.__init__ env index pin [] = (Ok fan, tr0) ->
  let r := run env (S fuel) index pin tmin tmax interval epsilon [] in
  (exists e, fst r = Raise e) /\
  reads (snd r) = 1%nat /\ sleeps (snd r) = 0%nat /\ closes (snd r) = 1%nat.
Proof.
  intros Hneg Hinit r.
  destruct (Fan_init_ok_inv _ _ _ _ _ Hinit) as (handle & _ & -> & Htr0).
  destruct (control_body env (Fan.mk pin (Some handle)) tmin tmax interval
              epsilon 0 tr0) as [o1 tr1] eqn:E.
  destruct (control_body_pass _ _ _ _ _ _ _ _ _ _ E)
    as (new1 & -> & Hrun & R1 & S1 & F1 & _).
  destruct o1 as [p|e|]; [| |now contradiction Hrun].
  { destruct (control_body_completed _ _ _ _ _ _ _ _ _ _ E)
      as (_ & _ & _ & _ & Hint & _). lra. }
  unfold r.
  rewrite (run_after_init _ _ _ _ _ _ _ _ _ _ _ _ Hinit
             (control_stops env _ tmin tmax interval epsilon 0 0 tr0 tr0 e _
                eq_refl E (S fuel) (Nat.lt_0_succ fuel))).
  cbn [fst snd]. split.
  - destruct (lg_gpiochip_close env _ handle); eexists; reflexivity.
  - rewrite !reads_app, !sleeps_app, !closes_app, R1, S1,
      (on_fan_no_close _ _ F1). subst tr0. repeat split.
Qed.

Lemma negative_interval_ends_first_pass_witness :
  let r := run (steady 60000) 3 0 14 50 75 (- (1)) 1 [] in
  (exists e, fst r = Raise e) /\
  reads (snd r) = 1%nat /\ sleeps (snd r) = 0%nat /\ closes (snd r) = 1%nat.
Proof.
  apply (negative_interval_ends_first_pass (steady 60000) 2 0 14
           50 75 (- (1)) 1 (Fan.mk 14 (Some 0%Z))
           [EvLog LogInitialising; EvGpiochipOpen 0;
            EvGpioClaimOutput 0 14]); reflexivity.
Defined.

(** X5: when [gpiochip_close] fails, [close] raises before [self.h] is
    cleared, so the object still holds the handle and a further [close]
    calls [gpiochip_close] on it again. *)
Theorem close_failure_keeps_handle (env : environment) (fan : Fan.t)
    (handle : Z) (tr : trace) :
  Fan.h fan = Some handle ->
  lg_gpiochip_close env (tr ++ [EvLog LogExiting]) handle = false ->
  let tr1 := tr ++ [EvLog LogExiting; EvGpiochipClose handle] in
  Fan.close env fan tr = (Raise LgpioError, tr1) /\
  snd (Fan.close env fan tr1)
    = tr1 ++ [EvLog LogExiting; EvGpiochipClose handle].
Proof.
  intros Hh Hc tr1. split.
  - rewrite (Fan_close_open env fan handle tr Hh). cbv zeta. now rewrite Hc.
  - rewrite (Fan_close_open env fan handle tr1 Hh). cbv zeta.
    destruct (lg_gpiochip_close env (tr1 ++ [EvLog LogExiting]) handle);
      reflexivity.
Qed.

Lemma close_failure_keeps_handle_witness :
  let env := board (fun _ => FileValue 60000) (Some 0%Z) true true false in
  let fan := Fan.mk 14 (Some 0%Z) in
  let tr1 := [] ++ [EvLog LogExiting; EvGpiochipClose 0] in
  Fan.close env fan [] = (Raise LgpioError, tr1) /\
  snd (Fan.close env fan tr1) = tr1 ++ [EvLog LogExiting; EvGpiochipClose 0].
Proof.
  apply (close_failure_keeps_handle
           (board (fun _ => FileValue 60000) (Some 0%Z) true true false)
           (Fan.mk 14 (Some 0%Z)) 0 []); reflexivity.
Defined.

Section Steady.

Variables (env : environment) (fan : Fan.t).
Variables (tmin tmax interval epsilon raw : Q).
Hypothesis steady_sensor : forall tr, thermal_zone0 env tr = FileValue raw.

Let body := control_body env fan tmin tmax interval epsilon.

(** Once the previous speed is within [epsilon] of the steady target, the
    loop writes nothing more. *)
Lemma settled_loop_is_quiet speed :
  (forall tr, target_speed tmin tmax (raw / 1000) tr = (Ok speed, tr)) ->
  forall fuel previous_speed tr o tr',
  Qabs (speed - previous_speed) <= epsilon ->
  while_true fuel body previous_speed tr = (o, tr') ->
  exists new, tr' = tr ++ new /\ pwm_writes new = [].
Proof.
  intros Hts. induction fuel as [|n IH];
    intros previous_speed tr o tr' Hle H; simpl in H.
  - unfold running in H. inversion H; subst. exists [].
    now rewrite app_nil_r.
  - unfold bind in H.
    destruct (body previous_speed tr) as [o1 tr1] eqn:E.
    destruct (control_body_pass _ _ _ _ _ _ _ _ _ _ E)
      as (new1 & -> & Hrun & _ & _ & _ & P1 & W1).
    assert (W : pwm_writes new1 = []).
    { destruct W1 as [W1|(raw' & speed' & Hraw' & Hts' & Hlt & _)];
        [exact W1|].
      rewrite steady_sensor in Hraw'. injection Hraw' as <-.
      pose proof (Hts []) as A. rewrite (Hts' []) in A.
      injection A as ->. lra. }
    rewrite W in P1. destruct o1 as [p1|e|]; [| |now contradiction Hrun].
    + simpl in P1. subst p1.
      destruct (IH _ _ _ _ Hle H) as (new2 & -> & W2).
      exists (new1 ++ new2). rewrite app_assoc, pwm_writes_app, W, W2.
      now split.
    + inversion H; subst. now exists new1.
Qed.

Lemma steady_loop_writes_once :
  0 <= epsilon ->
  forall fuel previous_speed tr o tr',
  while_true fuel body previous_speed tr = (o, tr') ->
  exists new, tr' = tr ++ new /\ (length (pwm_writes new) <= 1)%nat.
Proof.
  intros Heps. induction fuel as [|n IH];
    intros previous_speed tr o tr' H; simpl in H.
  - unfold running in H. inversion H; subst. exists [].
    rewrite app_nil_r. split; [reflexivity|simpl; lia].
  - unfold bind in H.
    destruct (body previous_speed tr) as [o1 tr1] eqn:E.
    destruct (control_body_pass _ _ _ _ _ _ _ _ _ _ E)
      as (new1 & -> & Hrun & _ & _ & _ & P1 & W1).
    destruct o1 as [p1|e|]; [| |now contradiction Hrun].
    + destruct W1 as [W1|(raw' & speed & Hraw' & Hts & _ & W1)];
        rewrite W1 in P1; simpl in P1; subst p1.
      * destruct (IH _ _ _ _ H) as (new2 & -> & L2).
        exists (new1 ++ new2). rewrite app_assoc, pwm_writes_app, W1.
        now split.
      * rewrite steady_sensor in Hraw'. injection Hraw' as <-.
        assert (Hle : Qabs (speed - speed) <= epsilon).
        { assert (Z : speed - speed == 0) by ring. rewrite Z. exact Heps. }
        destruct (settled_loop_is_quiet speed Hts _ _ _ _ _ Hle H)
          as (new2 & -> & W2).
        exists (new1 ++ new2). rewrite app_assoc, pwm_writes_app, W1, W2.
        split; [reflexivity|simpl; lia].
    + inversion H; subst. exists new1. split; [reflexivity|].
      destruct W1 as [->|(_ & speed & _ & _ & _ & ->)]; simpl; lia.
Qed.

End Steady.

(** X10: with [epsilon >= 0] and a sensor that always shows the same value,
    the loop writes to the fan at most once, however long it runs. *)
Theorem steady_temperature_one_write (env : environment) (fuel : nat)
    (fan : Fan.t) (tmin tmax interval epsilon raw : Q) (tr : trace) :
  0 <= epsilon ->
  (forall tr', thermal_zone0 env tr' = FileValue raw) ->
  exists new,
    snd (control env fuel fan tmin tmax interval epsilon tr) = tr ++ new /\
    (length (pwm_writes new) <= 1)%nat.
Proof.
  intros Heps Hsteady.
  destruct (control env fuel fan tmin tmax interval epsilon tr)
    as [o tr'] eqn:Hc. unfold control in Hc.
  exact (steady_loop_writes_once env fan tmin tmax interval epsilon raw
           Hsteady Heps fuel 0 tr o tr' Hc).
Qed.

Lemma steady_temperature_one_write_witness :
  exists new,
    snd (control (steady 60000) 5 (Fan.mk 14 (Some 0%Z)) 50 75 10 1 [])
      = [] ++ new /\
    (length (pwm_writes new) <= 1)%nat.
Proof.
  apply (steady_temperature_one_write (steady 60000) 5
           (Fan.mk 14 (Some 0%Z)) 50 75 10 1 60000 []).
  - discriminate.
  - intro tr'. reflexivity.
Defined.



(** ** Rounding

    The statements above are about exact arithmetic.  In binary64 the line
    is rounded three times, and the clamp does not hide that below 100: with
    [tmin = 68] and [tmax = 99] the duty cycle at 99 degrees is
    99.99999999999997, less than 100 by less than 2^-30. *)
Lemma binary64_rounding_at_tmax :
  (target_speed_binary64 68 99 99 <? 100)%float = true /\
  (100 - target_speed_binary64 68 99 99 <? 0x1p-30)%float = true.
Proof. split; vm_compute; reflexivity. Qed.
